(** * keymashed: probabilistic packet-drop classifiers

    A shallow embedding of the four eBPF traffic-control objects of the
    repository

      - [src/bpf/bpf.c]          (module [Bpf]),
      - [src/bpf/bpf2.c]         (module [Bpf2]),
      - [src/screamd/bpf/bpf.c]  (module [ScreamdBpf]),
      - [src/screamd/bpf.c]      (module [Screamd]),

    together with the part of the kernel they talk to through the helpers
    declared in [src/bpf/bpf_api.h]: the pinned maps and the pseudo-random
    source.  A program is a state transformer over that kernel state. *)

From Stdlib Require Import ZArith QArith Lia.
From stdpp Require Import gmap strings list.

Local Open Scope Z_scope.

(** ** C integers

    [uint32_t] and [int] are both 32 bits wide on the BPF target.  Values are
    kept as mathematical integers and every conversion is written out. *)

(** [UINT32_MAX] of [<stdint.h>]. *)
Definition UINT32_MAX : Z := 4294967295.

(** The values a [uint32_t] object can hold. *)
Definition uint32_range (z : Z) : Prop := 0 <= z <= UINT32_MAX.

(** Conversion to [uint32_t]: reduction modulo 2^32. *)
Definition to_uint32 (z : Z) : Z := z mod 2 ^ 32.

(** Conversion to [int], and the reading of four stored bytes through an
    [int *]: the two's complement value of the low 32 bits (what clang does
    for a value that does not fit). *)
Definition to_int (z : Z) : Z :=
  let u := z mod 2 ^ 32 in
  if u <? 2 ^ 31 then u else u - 2 ^ 32.

(** [a < b] for [a : uint32_t] and [b : uint32_t]. *)
Definition lt_uint32 (a b : Z) : bool := a <? b.

(** [a < b] for [a : uint32_t] and [b : int]: the usual arithmetic
    conversions turn [b] into an [unsigned int] first. *)
Definition lt_uint32_int (a b : Z) : bool := a <? to_uint32 b.

(** ** Traffic-control verdicts ([<linux/pkt_cls.h>]) *)

Definition TC_ACT_OK : Z := 0.
Definition TC_ACT_SHOT : Z := 2.

(** ** Map declarations (the [.maps] section) *)

Inductive bpf_map_type := BPF_MAP_TYPE_ARRAY.

Inductive libbpf_pin_type := LIBBPF_PIN_NONE | LIBBPF_PIN_BY_NAME.

Record bpf_map := {
  map_name : string;
  type : bpf_map_type;
  key_size : Z;
  value_size : Z;
  max_entries : Z;
  pinning : libbpf_pin_type
}.

(** ** The packet handle

    [struct __sk_buff] is the kernel's view of the packet.  None of the
    programs below dereferences it; a few of its fields are kept so that
    packets can differ. *)

Record __sk_buff := {
  len : Z;
  mark : Z;
  data : list Z
}.

(** ** Kernel state and helpers *)

(** Helper calls, recorded in the order in which a program issues them. *)
Inductive helper_call :=
  | call_map_lookup_elem (map : string) (key : Z)
  | call_map_update_elem (map : string) (key value : Z)
  | call_get_prandom_u32.

(** The state a program runs against: the maps pinned by name, the sequence
    of numbers the pseudo-random generator is going to hand out together with
    the number of draws already taken from it, and the log of helper calls. *)
Record kernel := {
  k_maps : gmap string (gmap Z Z);
  k_prandom : nat -> Z;
  k_draws : nat;
  k_trace : list helper_call
}.

(** Programs: state transformers with a result. *)
Definition bpf (A : Type) : Type := kernel -> A * kernel.

Definition ret {A : Type} (a : A) : bpf A := fun k => (a, k).

Definition bind {A B : Type} (m : bpf A) (f : A -> bpf B) : bpf B :=
  fun k => let (a, k') := m k in f a k'.

#[global] Instance bpf_ret : MRet bpf := @ret.
#[global] Instance bpf_bind : MBind bpf := fun A B f m => bind m f.

Definition log (c : helper_call) (k : kernel) : kernel :=
  {| k_maps := k_maps k; k_prandom := k_prandom k; k_draws := k_draws k;
     k_trace := k_trace k ++ [c] |}.

(** The value map [m] holds under [key]; [None] when the map is not there
    or has nothing under [key]. *)
Definition read (m : bpf_map) (key : Z) (k : kernel) : option Z :=
  k_maps k !! map_name m ≫= fun slots => slots !! key.

(** The number the generator hands out next. *)
Definition next_draw (k : kernel) : Z := k_prandom k (k_draws k).

(** [void *map_lookup_elem(void *map, const void *key)]: a pointer to the
    value stored under [key], or NULL.  Nothing writes to the map while one
    invocation runs, so the pointer is represented by the value it points
    to. *)
Definition map_lookup_elem (m : bpf_map) (key : Z) : bpf (option Z) :=
  fun k => (read m key k, log (call_map_lookup_elem (map_name m) key) k).

(** [int map_update_elem(void *map, const void *key, const void *value,
    uint32_t flags)]: stores the four bytes of the value. *)
Definition map_update_elem (m : bpf_map) (key value : Z) : bpf Z :=
  fun k =>
    let slots := default ∅ (k_maps k !! map_name m) in
    (0, log (call_map_update_elem (map_name m) key value)
          {| k_maps := <[map_name m := <[key := to_uint32 value]> slots]> (k_maps k);
             k_prandom := k_prandom k; k_draws := k_draws k;
             k_trace := k_trace k |}).

(** [uint32_t get_prandom_u32(void)]. *)
Definition get_prandom_u32 : bpf Z :=
  fun k =>
    (next_draw k,
     log call_get_prandom_u32
       {| k_maps := k_maps k; k_prandom := k_prandom k;
          k_draws := S (k_draws k); k_trace := k_trace k |}).

(** ** src/bpf/bpf.c *)
Module Bpf.

Definition map_keymash : bpf_map :=
  {| map_name := "map_keymash"; type := BPF_MAP_TYPE_ARRAY;
     key_size := 4; value_size := 4; max_entries := 1;
     pinning := LIBBPF_PIN_BY_NAME |}.

(** [if (val && get_prandom_u32() < *val)]: the right operand of [&&] is
    evaluated only when [val] is not NULL. *)
Definition scream_bpf (skb : __sk_buff) : bpf Z :=
  let key := 0 in
  val ← map_lookup_elem map_keymash key;
  cond ← match val with
          | Some v => d ← get_prandom_u32; ret (lt_uint32 d v)
          | None => ret false
          end;
  if (cond : bool) then ret TC_ACT_SHOT else ret TC_ACT_OK.

End Bpf.

(** ** src/bpf/bpf2.c *)
Module Bpf2.

Definition map_scream : bpf_map :=
  {| map_name := "map_scream"; type := BPF_MAP_TYPE_ARRAY;
     key_size := 4; value_size := 4; max_entries := 1;
     pinning := LIBBPF_PIN_BY_NAME |}.

(** [val] is a [uint32_t *]; [prob_frac] is an [int]. *)
Definition scream_bpf (skb : __sk_buff) : bpf Z :=
  let key := 0 in
  val ← map_lookup_elem map_scream key;
  let prob_frac := to_int 0 in
  let prob_frac := match val with
                   | Some v => to_int v
                   | None => prob_frac
                   end in
  d ← get_prandom_u32;
  if lt_uint32_int d prob_frac then ret TC_ACT_SHOT else ret TC_ACT_OK.

End Bpf2.

(** ** src/screamd/bpf/bpf.c *)
Module ScreamdBpf.

Definition map_scream : bpf_map :=
  {| map_name := "map_scream"; type := BPF_MAP_TYPE_ARRAY;
     key_size := 4; value_size := 4; max_entries := 1;
     pinning := LIBBPF_PIN_BY_NAME |}.

(** [val] is an [int *]: [*val] reads the four stored bytes as an [int]. *)
Definition scream_bpf (skb : __sk_buff) : bpf Z :=
  let key := 0 in
  val ← map_lookup_elem map_scream key;
  let prob_frac := to_int (UINT32_MAX / 10) in
  let prob_frac := match val with
                   | Some v => to_int v
                   | None => prob_frac
                   end in
  d ← get_prandom_u32;
  if lt_uint32_int d prob_frac then ret TC_ACT_SHOT else ret TC_ACT_OK.

End ScreamdBpf.

(** ** src/screamd/bpf.c *)
Module Screamd.

(** Declared, and used by neither hook. *)
Definition map_sh : bpf_map :=
  {| map_name := "map_sh"; type := BPF_MAP_TYPE_ARRAY;
     key_size := 4; value_size := 4; max_entries := 1;
     pinning := LIBBPF_PIN_BY_NAME |}.

Definition emain (skb : __sk_buff) : bpf Z :=
  d ← get_prandom_u32;
  if lt_uint32 d (UINT32_MAX / 10) then ret TC_ACT_SHOT else ret TC_ACT_OK.

Definition imain (skb : __sk_buff) : bpf Z :=
  d ← get_prandom_u32;
  if lt_uint32 d (UINT32_MAX / 10) then ret TC_ACT_SHOT else ret TC_ACT_OK.

End Screamd.

(** ** The hook entry points of the repository *)

Inductive entry_point :=
  | bpf_scream_bpf          (* src/bpf/bpf.c, section "classifier" *)
  | bpf2_scream_bpf         (* src/bpf/bpf2.c, section "classifier" *)
  | screamd_bpf_scream_bpf  (* src/screamd/bpf/bpf.c, section "classifier" *)
  | screamd_emain           (* src/screamd/bpf.c, section "egress" *)
  | screamd_imain.          (* src/screamd/bpf.c, section "ingress" *)

Definition invoke (e : entry_point) : __sk_buff -> bpf Z :=
  match e with
  | bpf_scream_bpf => Bpf.scream_bpf
  | bpf2_scream_bpf => Bpf2.scream_bpf
  | screamd_bpf_scream_bpf => ScreamdBpf.scream_bpf
  | screamd_emain => Screamd.emain
  | screamd_imain => Screamd.imain
  end.

(** The map declared in the entry point's object file. *)
Definition store (e : entry_point) : bpf_map :=
  match e with
  | bpf_scream_bpf => Bpf.map_keymash
  | bpf2_scream_bpf => Bpf2.map_scream
  | screamd_bpf_scream_bpf => ScreamdBpf.map_scream
  | screamd_emain | screamd_imain => Screamd.map_sh
  end.

Definition classifier (e : entry_point) : bool :=
  match e with
  | bpf_scream_bpf | bpf2_scream_bpf | screamd_bpf_scream_bpf => true
  | screamd_emain | screamd_imain => false
  end.

(** The threshold an entry point works with when the lookup misses.
    [src/bpf/bpf.c] has no such variable: there a miss skips the comparison
    and the packet passes, which is what a threshold of 0 gives. *)
Definition fallback (e : entry_point) : Z :=
  match e with
  | bpf_scream_bpf | bpf2_scream_bpf => 0
  | screamd_bpf_scream_bpf | screamd_emain | screamd_imain => UINT32_MAX / 10
  end.

(** The threshold register of an entry point: slot 0 of its map. *)
Definition stored (e : entry_point) (k : kernel) : option Z := read (store e) 0 k.

(** The register, when set, holds a [uint32_t] ([value_size] is 4). *)
Definition stored_uint32 (e : entry_point) (k : kernel) : Prop :=
  match stored e k with
  | Some v => uint32_range v
  | None => True
  end.

(** ** The decision function of the specification *)
Module Spec.

Inductive verdict := PASS | DROP.

(** "Return DROP if draw < threshold_or_default, else PASS." *)
Definition decide (threshold_or_default draw : Z) : verdict :=
  if draw <? threshold_or_default then DROP else PASS.

(** "if read returns unset at invocation time, use the fallback constant". *)
Definition threshold_or_default (read : option Z) (fallback : Z) : Z :=
  default fallback read.

Definition tc_action (v : verdict) : Z :=
  match v with
  | PASS => TC_ACT_OK
  | DROP => TC_ACT_SHOT
  end.

End Spec.

(** ** Observations on one invocation *)

(** The kernel after the lookup of slot 0 of [m], and after one draw. *)
Definition looked_up (m : bpf_map) (k : kernel) : kernel :=
  log (call_map_lookup_elem (map_name m) 0) k.

Definition drawn (k : kernel) : kernel := (get_prandom_u32 k).2.

(** The calls an invocation adds to the log begin with a lookup of slot 0 in
    the entry point's own map. *)
Definition reads_store_first (e : entry_point) (skb : __sk_buff) (k : kernel) : Prop :=
  exists rest,
    k_trace (invoke e skb k).2 =
    k_trace k ++ call_map_lookup_elem (map_name (store e)) 0 :: rest.

(** The verdict is the specification's decision on the stored threshold, or
    on the fallback when the register is unset. *)
Definition verdict_from_store (e : entry_point) (skb : __sk_buff) (k : kernel) : Prop :=
  (invoke e skb k).1 =
  Spec.tc_action
    (Spec.decide (Spec.threshold_or_default (stored e k) (fallback e)) (next_draw k)).

Definition is_draw (c : helper_call) : bool :=
  match c with
  | call_get_prandom_u32 => true
  | _ => false
  end.

Definition is_update (c : helper_call) : bool :=
  match c with
  | call_map_update_elem _ _ _ => true
  | _ => false
  end.

(** How many calls of a log satisfy [p]. *)
Fixpoint count_calls (p : helper_call -> bool) (tr : list helper_call) : nat :=
  match tr with
  | [] => O
  | c :: tr' => ((if p c then 1 else 0) + count_calls p tr')%nat
  end.

(** The invocation advances the generator by one and logs one call of
    [get_prandom_u32]. *)
Definition draws_once (e : entry_point) (skb : __sk_buff) (k : kernel) : Prop :=
  k_draws (invoke e skb k).2 = S (k_draws k) /\
  count_calls is_draw (k_trace (invoke e skb k).2) =
  S (count_calls is_draw (k_trace k)).

(** The invocation leaves the generator where it was. *)
Definition draws_never (e : entry_point) (skb : __sk_buff) (k : kernel) : Prop :=
  k_draws (invoke e skb k).2 = k_draws k /\
  count_calls is_draw (k_trace (invoke e skb k).2) =
  count_calls is_draw (k_trace k).

(** ** Sample inputs *)

Definition skb0 : __sk_buff := {| len := 0; mark := 0; data := [] |}.

Definition skb1 : __sk_buff := {| len := 3; mark := 7; data := [69; 0; 255] |}.

(** A kernel in which the map [m] has the slots [slots], every draw is [d],
    and no helper has been called yet. *)
Definition kernel_with (m : bpf_map) (slots : gmap Z Z) (d : Z) : kernel :=
  {| k_maps := {[ map_name m := slots ]}; k_prandom := fun _ => d;
     k_draws := 0; k_trace := [] |}.

(** ** Counting the draws that drop *)

(** How many of the draws [0], ..., [n - 1] satisfy [p]. *)
Fixpoint count_upto (p : Z -> bool) (n : nat) : Z :=
  match n with
  | O => 0
  | S n' => (if p (Z.of_nat n') then 1 else 0) + count_upto p n'
  end.

(** Does entry point [e] drop when its register holds [t] and the draw is
    [d]? *)
Definition drops (e : entry_point) (t d : Z) : bool :=
  (invoke e skb0 (kernel_with (store e) {[ 0 := t ]} d)).1 =? TC_ACT_SHOT.

(** The number of 32-bit values. *)
Definition draw_values : nat := Z.to_nat (2 ^ 32).

(** How many of the 2^32 draws make [e] drop under threshold [t], and the
    probability of a drop when each draw is equally likely. *)
Definition dropping_draws (e : entry_point) (t : Z) : Z :=
  count_upto (drops e t) draw_values.

Definition drop_probability (e : entry_point) (t : Z) : Q :=
  Qmake (dropping_draws e t) (Z.to_pos (2 ^ 32)).

(** ** Runs of packets

    The kernel calls a hook once for every packet that reaches it.
    [process e skbs] is the run of entry point [e] over the packets [skbs],
    in order, and gives the verdicts in that order. *)
Fixpoint process (e : entry_point) (skbs : list __sk_buff) : bpf (list Z) :=
  match skbs with
  | [] => ret []
  | skb :: rest =>
      v ← invoke e skb;
      vs ← process e rest;
      ret (v :: vs)
  end.

(** The helper calls an invocation of [e] issues, given what slot 0 of its
    map holds. *)
Definition footprint (e : entry_point) (slot : option Z) : list helper_call :=
  match e, slot with
  | bpf_scream_bpf, None => [call_map_lookup_elem "map_keymash" 0]
  | bpf_scream_bpf, Some _ =>
      [call_map_lookup_elem "map_keymash" 0; call_get_prandom_u32]
  | bpf2_scream_bpf, _ | screamd_bpf_scream_bpf, _ =>
      [call_map_lookup_elem "map_scream" 0; call_get_prandom_u32]
  | screamd_emain, _ | screamd_imain, _ => [call_get_prandom_u32]
  end.

(** * Lemmas *)

(** ** Arithmetic of the conversions *)

Lemma uint32_range_intro (v : Z) : 0 <= v < 2 ^ 32 -> uint32_range v.
Proof. unfold uint32_range, UINT32_MAX. lia. Qed.

Lemma to_uint32_id (v : Z) : uint32_range v -> to_uint32 v = v.
Proof.
  unfold uint32_range, UINT32_MAX, to_uint32. intros Hv.
  apply Z.mod_small. lia.
Qed.

(** Converting an [int] back to [unsigned int] gives the 32 bits it was made
    from. *)
Lemma to_uint32_to_int (v : Z) : to_uint32 (to_int v) = to_uint32 v.
Proof.
  unfold to_uint32, to_int. cbv zeta.
  destruct (Z.ltb_spec (v mod 2 ^ 32) (2 ^ 31)) as [Hlt | Hge].
  - apply Z.mod_mod. lia.
  - replace (v mod 2 ^ 32 - 2 ^ 32) with (v mod 2 ^ 32 + (-1) * 2 ^ 32) by lia.
    rewrite Z.mod_add by lia. apply Z.mod_mod. lia.
Qed.

Lemma to_int_negative (v : Z) : uint32_range v -> 2 ^ 31 <= v -> to_int v < 0.
Proof.
  unfold uint32_range, UINT32_MAX, to_int. intros Hv Hbig. cbv zeta.
  rewrite Z.mod_small by lia.
  destruct (Z.ltb_spec v (2 ^ 31)); lia.
Qed.

Lemma fallback_tenth_fits : to_uint32 (to_int (UINT32_MAX / 10)) = UINT32_MAX / 10.
Proof. reflexivity. Qed.

Example to_int_wraps : to_int 3000000000 = -1294967296.
Proof. reflexivity. Qed.

(** ** The state monad and the helpers *)

Lemma read_kernel_with (m : bpf_map) (slots : gmap Z Z) (d key : Z) :
  read m key (kernel_with m slots d) = slots !! key.
Proof. unfold read, kernel_with. simpl. by rewrite lookup_singleton_eq. Qed.

(** What the control plane writes is what the next lookup finds. *)
Lemma read_after_update (m : bpf_map) (key value : Z) (k : kernel) :
  read m key (map_update_elem m key value k).2 = Some (to_uint32 value).
Proof.
  unfold read, map_update_elem. simpl.
  by rewrite lookup_insert_eq; simpl; rewrite lookup_insert_eq.
Qed.

Lemma count_calls_app (p : helper_call -> bool) (tr1 tr2 : list helper_call) :
  count_calls p (tr1 ++ tr2) = (count_calls p tr1 + count_calls p tr2)%nat.
Proof.
  induction tr1 as [| c tr1 IH]; simpl; [done |]. rewrite IH. lia.
Qed.

Lemma count_calls_log (p : helper_call -> bool) (c : helper_call) (k : kernel) :
  count_calls p (k_trace (log c k)) =
  (count_calls p (k_trace k) + if p c then 1 else 0)%nat.
Proof. unfold log. simpl. rewrite count_calls_app. simpl. lia. Qed.

Lemma count_calls_looked_up (p : helper_call -> bool) (m : bpf_map) (k : kernel) :
  count_calls p (k_trace (looked_up m k)) =
  (count_calls p (k_trace k) +
   if p (call_map_lookup_elem (map_name m) 0) then 1 else 0)%nat.
Proof. apply count_calls_log. Qed.

Lemma count_calls_drawn (p : helper_call -> bool) (k : kernel) :
  count_calls p (k_trace (drawn k)) =
  (count_calls p (k_trace k) + if p call_get_prandom_u32 then 1 else 0)%nat.
Proof. unfold drawn, get_prandom_u32. simpl. rewrite count_calls_app. simpl. lia. Qed.

Lemma k_draws_looked_up (m : bpf_map) (k : kernel) :
  k_draws (looked_up m k) = k_draws k.
Proof. reflexivity. Qed.

Lemma k_draws_drawn (k : kernel) : k_draws (drawn k) = S (k_draws k).
Proof. reflexivity. Qed.

Lemma k_maps_looked_up (m : bpf_map) (k : kernel) :
  k_maps (looked_up m k) = k_maps k.
Proof. reflexivity. Qed.

Lemma k_maps_drawn (k : kernel) : k_maps (drawn k) = k_maps k.
Proof. reflexivity. Qed.

Create Rewrite HintDb after_eqs.
#[global] Hint Rewrite count_calls_looked_up count_calls_drawn
  k_draws_looked_up k_draws_drawn k_maps_looked_up k_maps_drawn : after_eqs.

(** ** What each program computes *)

Section Runs.

Variables (skb : __sk_buff) (k : kernel).

Lemma Bpf_scream_bpf_run :
  Bpf.scream_bpf skb k =
  match read Bpf.map_keymash 0 k with
  | Some v => (if next_draw k <? v then TC_ACT_SHOT else TC_ACT_OK,
               drawn (looked_up Bpf.map_keymash k))
  | None => (TC_ACT_OK, looked_up Bpf.map_keymash k)
  end.
Proof.
  unfold Bpf.scream_bpf, mbind, bpf_bind, bind, map_lookup_elem. cbv zeta.
  destruct (read Bpf.map_keymash 0 k) as [v |]; [| reflexivity].
  unfold get_prandom_u32, ret, lt_uint32, drawn, looked_up, next_draw. simpl.
  by destruct (_ <? v).
Qed.

Lemma Bpf2_scream_bpf_run :
  Bpf2.scream_bpf skb k =
  (if next_draw k <? to_uint32 (to_int (default 0 (read Bpf2.map_scream 0 k)))
   then TC_ACT_SHOT else TC_ACT_OK,
   drawn (looked_up Bpf2.map_scream k)).
Proof.
  unfold Bpf2.scream_bpf, mbind, bpf_bind, bind, map_lookup_elem. cbv zeta.
  unfold get_prandom_u32, ret, lt_uint32_int, drawn, looked_up, next_draw. simpl.
  destruct (read Bpf2.map_scream 0 k) as [v |]; simpl; by destruct (_ <? _).
Qed.

Lemma ScreamdBpf_scream_bpf_run :
  ScreamdBpf.scream_bpf skb k =
  (if next_draw k <?
      to_uint32 (to_int (default (UINT32_MAX / 10) (read ScreamdBpf.map_scream 0 k)))
   then TC_ACT_SHOT else TC_ACT_OK,
   drawn (looked_up ScreamdBpf.map_scream k)).
Proof.
  unfold ScreamdBpf.scream_bpf, mbind, bpf_bind, bind, map_lookup_elem. cbv zeta.
  unfold get_prandom_u32, ret, lt_uint32_int, drawn, looked_up, next_draw. simpl.
  destruct (read ScreamdBpf.map_scream 0 k) as [v |]; simpl; by destruct (_ <? _).
Qed.

Lemma Screamd_emain_run :
  Screamd.emain skb k =
  (if next_draw k <? UINT32_MAX / 10 then TC_ACT_SHOT else TC_ACT_OK, drawn k).
Proof.
  unfold Screamd.emain, mbind, bpf_bind, bind, get_prandom_u32, drawn, ret, lt_uint32.
  simpl. by destruct (_ <? _).
Qed.

Lemma Screamd_imain_run :
  Screamd.imain skb k =
  (if next_draw k <? UINT32_MAX / 10 then TC_ACT_SHOT else TC_ACT_OK, drawn k).
Proof.
  unfold Screamd.imain, mbind, bpf_bind, bind, get_prandom_u32, drawn, ret, lt_uint32.
  simpl. by destruct (_ <? _).
Qed.

End Runs.

Create Rewrite HintDb run_eqs.
#[global] Hint Rewrite Bpf_scream_bpf_run Bpf2_scream_bpf_run
  ScreamdBpf_scream_bpf_run Screamd_emain_run Screamd_imain_run : run_eqs.

Ltac run_entry :=
  unfold invoke, stored, store in *; autorewrite with run_eqs.

Section Results.

Variables (e : entry_point) (skb : __sk_buff) (k : kernel).

(** The verdict of a classifier is the comparison of the draw with the
    register, or with the fallback when the register is unset. *)
Lemma classifier_result :
  classifier e = true -> stored_uint32 e k -> uint32_range (next_draw k) ->
  (invoke e skb k).1 =
  if next_draw k <? default (fallback e) (stored e k)
  then TC_ACT_SHOT else TC_ACT_OK.
Proof.
  intros Hc Hv Hd. unfold stored_uint32 in Hv.
  destruct e; try discriminate Hc; run_entry; simpl fallback.
  - destruct (read Bpf.map_keymash 0 k) as [v |]; simpl; [done |].
    destruct (Z.ltb_spec (next_draw k) 0); [| done].
    unfold uint32_range in Hd. lia.
  - destruct (read Bpf2.map_scream 0 k) as [v |]; simpl; [| done].
    by rewrite to_uint32_to_int, to_uint32_id.
  - destruct (read ScreamdBpf.map_scream 0 k) as [v |]; simpl.
    + by rewrite to_uint32_to_int, to_uint32_id.
    + by rewrite fallback_tenth_fits.
Qed.

(** The kernel a classifier leaves behind. *)
Lemma classifier_state :
  classifier e = true ->
  (invoke e skb k).2 =
  match e, stored e k with
  | bpf_scream_bpf, None => looked_up (store e) k
  | _, _ => drawn (looked_up (store e) k)
  end.
Proof.
  intros Hc. destruct e; try discriminate Hc; run_entry; try done.
  by destruct (read Bpf.map_keymash 0 k).
Qed.

(** The ingress and egress hooks compare the draw with a constant. *)
Lemma direction_hook_result :
  classifier e = false ->
  invoke e skb k =
  (if next_draw k <? UINT32_MAX / 10 then TC_ACT_SHOT else TC_ACT_OK, drawn k).
Proof. intros Hc. destruct e; try discriminate Hc; by run_entry. Qed.

(** Every invocation ends in one of three kernels. *)
Lemma invoke_state :
  (invoke e skb k).2 = looked_up (store e) k \/
  (invoke e skb k).2 = drawn (looked_up (store e) k) \/
  (invoke e skb k).2 = drawn k.
Proof.
  destruct (classifier e) eqn:Hc.
  - rewrite classifier_state by done.
    destruct e; try destruct (stored bpf_scream_bpf k); auto.
  - rewrite direction_hook_result by done. auto.
Qed.

End Results.

Lemma tc_action_decide (t d : Z) :
  Spec.tc_action (Spec.decide t d) = if d <? t then TC_ACT_SHOT else TC_ACT_OK.
Proof. unfold Spec.decide. by destruct (d <? t). Qed.

(** ** Counting *)

Example count_upto_small : count_upto (fun d => d <? 3) 10 = 3.
Proof. reflexivity. Qed.

Lemma count_upto_below (p : Z -> bool) (t : Z) (n : nat) :
  0 <= t ->
  (forall d, 0 <= d < Z.of_nat n -> p d = (d <? t)) ->
  count_upto p n = Z.min t (Z.of_nat n).
Proof.
  intros Ht. induction n as [| n IH]; intros Hp.
  - simpl. lia.
  - cbn [count_upto]. rewrite IH by (intros d Hd; apply Hp; lia).
    rewrite Hp by lia.
    destruct (Z.ltb_spec (Z.of_nat n) t); lia.
Qed.

Lemma drops_below (e : entry_point) (t d : Z) :
  classifier e = true -> uint32_range t -> uint32_range d ->
  drops e t d = (d <? t).
Proof.
  intros Hc Ht Hd. unfold drops.
  rewrite classifier_result; unfold stored_uint32, stored, next_draw;
    rewrite ?read_kernel_with, ?lookup_singleton_eq; simpl; try done.
  by destruct (d <? t).
Qed.

Lemma draw_values_Z : Z.of_nat draw_values = 2 ^ 32.
Proof. unfold draw_values. apply Z2Nat.id. lia. Qed.

Lemma dropping_draws_classifier (e : entry_point) (t : Z) :
  classifier e = true -> uint32_range t -> dropping_draws e t = t.
Proof.
  intros Hc Ht. unfold dropping_draws.
  rewrite (count_upto_below _ t).
  - rewrite draw_values_Z. unfold uint32_range, UINT32_MAX in Ht. lia.
  - unfold uint32_range in Ht. lia.
  - intros d. rewrite draw_values_Z. intros Hd.
    apply drops_below; [done | done |].
    by apply uint32_range_intro.
Qed.

(** * Claims *)

(** C1. For the three classifier entry points (src/bpf/bpf.c, src/bpf/bpf2.c,
    src/screamd/bpf/bpf.c): with [t] the stored 32-bit value when the register
    is set and the entry point's fallback constant otherwise, and [d] the
    32-bit draw, an invocation returns [TC_ACT_SHOT] if [d < t] as unsigned
    32-bit numbers and [TC_ACT_OK] otherwise. *)
Theorem classifier_verdict
    (e : entry_point) (skb : __sk_buff) (k : kernel) (t d : Z) :
  classifier e = true ->
  stored_uint32 e k ->
  Spec.threshold_or_default (stored e k) (fallback e) = t ->
  next_draw k = d ->
  uint32_range d ->
  (invoke e skb k).1 = if d <? t then TC_ACT_SHOT else TC_ACT_OK.
Proof.
  intros Hc Hv <- <- Hd. by apply classifier_result.
Qed.

Lemma classifier_verdict_witness :
  let k := kernel_with ScreamdBpf.map_scream {[ 0 := 3000000000 ]} 2999999999 in
  classifier screamd_bpf_scream_bpf = true /\
  stored_uint32 screamd_bpf_scream_bpf k /\
  Spec.threshold_or_default (stored screamd_bpf_scream_bpf k)
    (fallback screamd_bpf_scream_bpf) = 3000000000 /\
  next_draw k = 2999999999 /\
  uint32_range 2999999999 /\
  (invoke screamd_bpf_scream_bpf skb1 k).1 = TC_ACT_SHOT.
Proof.
  intros k.
  assert (Hr : uint32_range 2999999999) by (apply uint32_range_intro; lia).
  assert (Hs : stored_uint32 screamd_bpf_scream_bpf k)
    by (change (uint32_range 3000000000); apply uint32_range_intro; lia).
  split; [reflexivity |]. split; [exact Hs |]. split; [reflexivity |].
  split; [reflexivity |]. split; [exact Hr |].
  exact (classifier_verdict screamd_bpf_scream_bpf skb1 k 3000000000 2999999999
           eq_refl Hs eq_refl eq_refl Hr).
Defined.

(** C2, as stated, fails: the egress hook of src/screamd/bpf.c issues no
    lookup at all, and with the register of its map set to 0 and the draw 0
    it drops the packet although the stored threshold would let it pass. *)
Lemma emain_ignores_store :
  let k := kernel_with Screamd.map_sh {[ 0 := 0 ]} 0 in
  stored screamd_emain k = Some 0 /\
  next_draw k = 0 /\
  k_trace (invoke screamd_emain skb0 k).2 = [call_get_prandom_u32] /\
  ~ reads_store_first screamd_emain skb0 k /\
  (invoke screamd_emain skb0 k).1 = TC_ACT_SHOT /\
  ~ verdict_from_store screamd_emain skb0 k.
Proof.
  intros k. repeat split.
  - intros [rest Hrest]. discriminate Hrest.
  - intros Hv. discriminate Hv.
Qed.

(** C2, amended. The three classifier entry points begin every invocation
    with a lookup of slot 0 of their map, and their verdict is the decision
    on the stored threshold (or on the fallback when the register is unset).
    The egress and ingress hooks of src/screamd/bpf.c never look the map up:
    their only helper call is the draw, and their verdict is the decision on
    the constant UINT32_MAX / 10 whatever the map holds. *)
Theorem store_read_by_classifiers (e : entry_point) (skb : __sk_buff) (k : kernel) :
  stored_uint32 e k ->
  uint32_range (next_draw k) ->
  if classifier e
  then reads_store_first e skb k /\ verdict_from_store e skb k
  else k_trace (invoke e skb k).2 = k_trace k ++ [call_get_prandom_u32] /\
       (invoke e skb k).1 =
       Spec.tc_action (Spec.decide (UINT32_MAX / 10) (next_draw k)).
Proof.
  intros Hv Hd. destruct (classifier e) eqn:Hc.
  - split.
    + unfold reads_store_first. rewrite classifier_state by done.
      destruct e; try discriminate Hc; simpl;
        try destruct (stored bpf_scream_bpf k); simpl;
        rewrite <- ?app_assoc; eexists; reflexivity.
    + unfold verdict_from_store, Spec.threshold_or_default.
      rewrite tc_action_decide. by apply classifier_result.
  - rewrite direction_hook_result by done. simpl.
    by rewrite tc_action_decide.
Qed.

Lemma store_read_by_classifiers_witness :
  let k := kernel_with Bpf2.map_scream {[ 0 := 429496730 ]} 429496729 in
  stored_uint32 bpf2_scream_bpf k /\
  uint32_range (next_draw k) /\
  reads_store_first bpf2_scream_bpf skb1 k /\
  verdict_from_store bpf2_scream_bpf skb1 k.
Proof.
  intros k.
  assert (Hs : stored_uint32 bpf2_scream_bpf k)
    by (change (uint32_range 429496730); apply uint32_range_intro; lia).
  assert (Hd : uint32_range (next_draw k))
    by (change (uint32_range 429496729); apply uint32_range_intro; lia).
  split; [exact Hs |]. split; [exact Hd |].
  exact (store_read_by_classifiers bpf2_scream_bpf skb1 k Hs Hd).
Defined.

(** C3. When the lookup misses, a classifier still returns a verdict:
    src/bpf/bpf.c and src/bpf/bpf2.c pass the packet, and
    src/screamd/bpf/bpf.c drops it exactly when the draw is below
    UINT32_MAX / 10. *)
Theorem miss_uses_fallback (e : entry_point) (skb : __sk_buff) (k : kernel) :
  classifier e = true ->
  stored e k = None ->
  uint32_range (next_draw k) ->
  (invoke e skb k).1 =
  match e with
  | screamd_bpf_scream_bpf =>
      if next_draw k <? UINT32_MAX / 10 then TC_ACT_SHOT else TC_ACT_OK
  | _ => TC_ACT_OK
  end.
Proof.
  intros Hc Hmiss Hd.
  rewrite classifier_result; [| done | by unfold stored_uint32; rewrite Hmiss | done].
  rewrite Hmiss. simpl default.
  destruct e; try discriminate Hc; simpl fallback; try done;
    destruct (Z.ltb_spec (next_draw k) 0); try done;
    unfold uint32_range in Hd; lia.
Qed.

Lemma miss_uses_fallback_witness :
  let k := kernel_with ScreamdBpf.map_scream ∅ 429496728 in
  classifier screamd_bpf_scream_bpf = true /\
  stored screamd_bpf_scream_bpf k = None /\
  uint32_range (next_draw k) /\
  (invoke screamd_bpf_scream_bpf skb0 k).1 = TC_ACT_SHOT.
Proof.
  intros k.
  assert (Hd : uint32_range (next_draw k))
    by (change (uint32_range 429496728); apply uint32_range_intro; lia).
  split; [reflexivity |]. split; [reflexivity |]. split; [exact Hd |].
  exact (miss_uses_fallback screamd_bpf_scream_bpf skb0 k eq_refl eq_refl Hd).
Defined.

(** C4. In src/bpf/bpf2.c and src/screamd/bpf/bpf.c the stored value passes
    through the [int] variable [prob_frac], which is negative for stored
    values of 2^31 and more; the comparison with the draw is still the
    unsigned one on the stored value [v], for every [v], so that [v] of the
    2^32 draws drop. *)
Theorem int_holder_compares_unsigned
    (e : entry_point) (skb : __sk_buff) (k : kernel) (v : Z) :
  e = bpf2_scream_bpf \/ e = screamd_bpf_scream_bpf ->
  stored e k = Some v ->
  uint32_range v ->
  (2 ^ 31 <= v -> to_int v < 0) /\
  (invoke e skb k).1 = (if next_draw k <? v then TC_ACT_SHOT else TC_ACT_OK) /\
  dropping_draws e v = v.
Proof.
  intros He Hs Hv. split; [by apply to_int_negative |]. split.
  - destruct He as [-> | ->]; run_entry; rewrite Hs; simpl;
      by rewrite to_uint32_to_int, to_uint32_id.
  - apply dropping_draws_classifier; [by destruct He as [-> | ->] | done].
Qed.

Lemma int_holder_compares_unsigned_witness :
  let k := kernel_with Bpf2.map_scream {[ 0 := 4294967295 ]} 5 in
  (bpf2_scream_bpf = bpf2_scream_bpf \/ bpf2_scream_bpf = screamd_bpf_scream_bpf) /\
  stored bpf2_scream_bpf k = Some 4294967295 /\
  uint32_range 4294967295 /\
  to_int 4294967295 < 0 /\
  (invoke bpf2_scream_bpf skb0 k).1 = TC_ACT_SHOT /\
  dropping_draws bpf2_scream_bpf 4294967295 = 4294967295.
Proof.
  intros k.
  assert (Hv : uint32_range 4294967295) by (apply uint32_range_intro; lia).
  split; [by left |]. split; [reflexivity |]. split; [exact Hv |].
  destruct (int_holder_compares_unsigned bpf2_scream_bpf skb0 k 4294967295
              (or_introl eq_refl) eq_refl Hv) as (Hneg & Hres & Hcount).
  split; [apply Hneg; lia |]. split; [exact Hres | exact Hcount].
Defined.

(** C5, as stated, fails: in src/bpf/bpf.c the draw is the right operand of
    [&&], so an invocation whose lookup misses returns without calling
    [get_prandom_u32]. *)
Lemma bpf_miss_takes_no_draw :
  let k := kernel_with Bpf.map_keymash ∅ 7 in
  stored bpf_scream_bpf k = None /\
  k_trace (invoke bpf_scream_bpf skb0 k).2 = [call_map_lookup_elem "map_keymash" 0] /\
  k_draws (invoke bpf_scream_bpf skb0 k).2 = O /\
  ~ draws_once bpf_scream_bpf skb0 k.
Proof.
  intros k. repeat split.
  intros [Hdraws _]. discriminate Hdraws.
Qed.

(** C5, amended. Every entry point draws exactly once per invocation, except
    that the classifier of src/bpf/bpf.c draws exactly once when its lookup
    hits and not at all when it misses. *)
Theorem one_draw_unless_bpf_misses (e : entry_point) (skb : __sk_buff) (k : kernel) :
  match e, stored e k with
  | bpf_scream_bpf, None => draws_never e skb k
  | _, _ => draws_once e skb k
  end.
Proof.
  unfold draws_once, draws_never.
  destruct (classifier e) eqn:Hc.
  - rewrite classifier_state by done.
    destruct e; try discriminate Hc; try destruct (stored bpf_scream_bpf k);
      autorewrite with after_eqs; simpl; split; lia.
  - rewrite direction_hook_result by done. cbn [snd].
    destruct e; try discriminate Hc;
      autorewrite with after_eqs; simpl; split; lia.
Qed.

Lemma one_draw_unless_bpf_misses_witness :
  draws_once bpf2_scream_bpf skb1 (kernel_with Bpf2.map_scream ∅ 7) /\
  draws_never bpf_scream_bpf skb1 (kernel_with Bpf.map_keymash ∅ 7).
Proof.
  split.
  - exact (one_draw_unless_bpf_misses bpf2_scream_bpf skb1
             (kernel_with Bpf2.map_scream ∅ 7)).
  - exact (one_draw_unless_bpf_misses bpf_scream_bpf skb1
             (kernel_with Bpf.map_keymash ∅ 7)).
Defined.

(** C6. For every 32-bit threshold [t] held by the register, exactly [t] of
    the 2^32 draw values make the classifier drop, so a uniformly distributed
    draw is dropped with probability [t / 2^32]. *)
Theorem drop_count_is_threshold (e : entry_point) (t : Z) :
  classifier e = true ->
  uint32_range t ->
  dropping_draws e t = t /\
  (drop_probability e t == inject_Z t / inject_Z (2 ^ 32))%Q.
Proof.
  intros Hc Ht. unfold drop_probability.
  rewrite dropping_draws_classifier by done. split; [done |].
  rewrite Qmake_Qdiv. reflexivity.
Qed.

Lemma drop_count_is_threshold_witness :
  classifier bpf_scream_bpf = true /\
  uint32_range 429496730 /\
  dropping_draws bpf_scream_bpf 429496730 = 429496730 /\
  (drop_probability bpf_scream_bpf 429496730 ==
   inject_Z 429496730 / inject_Z (2 ^ 32))%Q.
Proof.
  assert (Ht : uint32_range 429496730) by (apply uint32_range_intro; lia).
  split; [reflexivity |]. split; [exact Ht |].
  exact (drop_count_is_threshold bpf_scream_bpf 429496730 eq_refl Ht).
Defined.

(** C7. With the register at 0 a classifier passes every draw; with the
    register at 2^32 - 1 it drops every draw except 2^32 - 1, which passes. *)
Theorem extreme_thresholds
    (e : entry_point) (skb : __sk_buff) (kmin kmax : kernel) :
  classifier e = true ->
  stored e kmin = Some 0 ->
  stored e kmax = Some (2 ^ 32 - 1) ->
  uint32_range (next_draw kmin) ->
  uint32_range (next_draw kmax) ->
  (invoke e skb kmin).1 = TC_ACT_OK /\
  (next_draw kmax <> 2 ^ 32 - 1 -> (invoke e skb kmax).1 = TC_ACT_SHOT) /\
  (next_draw kmax = 2 ^ 32 - 1 -> (invoke e skb kmax).1 = TC_ACT_OK).
Proof.
  intros Hc Hmin Hmax Hdmin Hdmax.
  assert (Hsmin : stored_uint32 e kmin).
  { unfold stored_uint32. rewrite Hmin. apply uint32_range_intro. lia. }
  assert (Hsmax : stored_uint32 e kmax).
  { unfold stored_uint32. rewrite Hmax. apply uint32_range_intro. lia. }
  rewrite !classifier_result by done. rewrite Hmin, Hmax. simpl default.
  unfold uint32_range, UINT32_MAX in Hdmin, Hdmax.
  repeat split.
  - destruct (Z.ltb_spec (next_draw kmin) 0); [lia | done].
  - intros Hne. destruct (Z.ltb_spec (next_draw kmax) (2 ^ 32 - 1)); [done | lia].
  - intros ->. done.
Qed.

Lemma extreme_thresholds_witness :
  let kmin := kernel_with Bpf.map_keymash {[ 0 := 0 ]} 0 in
  let kmax := kernel_with Bpf.map_keymash {[ 0 := 2 ^ 32 - 1 ]} (2 ^ 32 - 1) in
  classifier bpf_scream_bpf = true /\
  stored bpf_scream_bpf kmin = Some 0 /\
  stored bpf_scream_bpf kmax = Some (2 ^ 32 - 1) /\
  uint32_range (next_draw kmin) /\
  uint32_range (next_draw kmax) /\
  (invoke bpf_scream_bpf skb1 kmin).1 = TC_ACT_OK /\
  (invoke bpf_scream_bpf skb1 kmax).1 = TC_ACT_OK.
Proof.
  intros kmin kmax.
  assert (Hdmin : uint32_range (next_draw kmin))
    by (change (uint32_range 0); apply uint32_range_intro; lia).
  assert (Hdmax : uint32_range (next_draw kmax))
    by (change (uint32_range (2 ^ 32 - 1)); apply uint32_range_intro; lia).
  split; [reflexivity |]. split; [reflexivity |]. split; [reflexivity |].
  split; [exact Hdmin |]. split; [exact Hdmax |].
  destruct (extreme_thresholds bpf_scream_bpf skb1 kmin kmax
              eq_refl eq_refl eq_refl Hdmin Hdmax) as (Hpass & _ & Hlast).
  split; [exact Hpass | apply Hlast; reflexivity].
Defined.

(** C8. The verdict depends on the register and on the draw only: two
    invocations of the same entry point that see the same register and the
    same draw return the same verdict, whatever the two packets are and
    whatever else differs between the two kernels. *)
Theorem verdict_ignores_packet
    (e : entry_point) (skb skb' : __sk_buff) (k k' : kernel) :
  stored e k = stored e k' ->
  next_draw k = next_draw k' ->
  (invoke e skb k).1 = (invoke e skb' k').1.
Proof.
  intros Hs Hd. destruct e; run_entry; rewrite ?Hs, ?Hd; try done.
  by destruct (read Bpf.map_keymash 0 k').
Qed.

Lemma verdict_ignores_packet_witness :
  let k := kernel_with ScreamdBpf.map_scream {[ 0 := 5 ]} 3 in
  let k' := (map_update_elem Bpf.map_keymash 0 9
               (drawn (kernel_with ScreamdBpf.map_scream {[ 0 := 5; 1 := 8 ]} 3))).2 in
  stored screamd_bpf_scream_bpf k = stored screamd_bpf_scream_bpf k' /\
  next_draw k = next_draw k' /\
  (invoke screamd_bpf_scream_bpf skb0 k).1 =
  (invoke screamd_bpf_scream_bpf skb1 k').1.
Proof.
  intros k k'. split; [reflexivity |]. split; [reflexivity |].
  exact (verdict_ignores_packet screamd_bpf_scream_bpf skb0 skb1 k k' eq_refl eq_refl).
Defined.

(** C9. No entry point writes to a map: after an invocation every pinned map
    holds what it held before, and the log has gained no call of
    [map_update_elem]. *)
Theorem invocation_keeps_maps (e : entry_point) (skb : __sk_buff) (k : kernel) :
  k_maps (invoke e skb k).2 = k_maps k /\
  count_calls is_update (k_trace (invoke e skb k).2) =
  count_calls is_update (k_trace k).
Proof.
  destruct (invoke_state e skb k) as [-> | [-> | ->]];
    autorewrite with after_eqs; simpl; split; (done || lia).
Qed.

Lemma invocation_keeps_maps_witness :
  let k := (map_update_elem Bpf2.map_scream 0 429496730
              (kernel_with Bpf2.map_scream ∅ 1)).2 in
  stored bpf2_scream_bpf k = Some 429496730 /\
  k_maps (invoke bpf2_scream_bpf skb1 k).2 = k_maps k /\
  count_calls is_update (k_trace (invoke bpf2_scream_bpf skb1 k).2) = 1%nat.
Proof.
  intros k. split; [reflexivity |].
  exact (invocation_keeps_maps bpf2_scream_bpf skb1 k).
Defined.

(** C10. The classifiers of src/bpf/bpf.c and src/bpf/bpf2.c give the same
    verdict whenever they see the same register (set to any 32-bit value, or
    unset) and the same 32-bit draw. *)
Theorem bpf_bpf2_same_verdict (skb skb' : __sk_buff) (k k' : kernel) :
  stored bpf_scream_bpf k = stored bpf2_scream_bpf k' ->
  next_draw k = next_draw k' ->
  stored_uint32 bpf_scream_bpf k ->
  uint32_range (next_draw k) ->
  (Bpf.scream_bpf skb k).1 = (Bpf2.scream_bpf skb' k').1.
Proof.
  intros Hs Hd Hv Hr.
  assert (Hv' : stored_uint32 bpf2_scream_bpf k')
    by (unfold stored_uint32 in *; by rewrite <- Hs).
  change ((invoke bpf_scream_bpf skb k).1 = (invoke bpf2_scream_bpf skb' k').1).
  rewrite !classifier_result; try done; [| by rewrite <- Hd].
  by rewrite Hs, Hd.
Qed.

Lemma bpf_bpf2_same_verdict_witness :
  let k := kernel_with Bpf.map_keymash ∅ 0 in
  let k' := kernel_with Bpf2.map_scream ∅ 0 in
  stored bpf_scream_bpf k = stored bpf2_scream_bpf k' /\
  next_draw k = next_draw k' /\
  stored_uint32 bpf_scream_bpf k /\
  uint32_range (next_draw k) /\
  (Bpf.scream_bpf skb0 k).1 = (Bpf2.scream_bpf skb1 k').1.
Proof.
  intros k k'.
  assert (Hr : uint32_range (next_draw k))
    by (change (uint32_range 0); apply uint32_range_intro; lia).
  split; [reflexivity |]. split; [reflexivity |]. split; [exact I |].
  split; [exact Hr |].
  exact (bpf_bpf2_same_verdict skb0 skb1 k k' eq_refl eq_refl I Hr).
Defined.

(** * Further properties of the programs *)

(** ** Helper lemmas *)

Lemma read_same_maps (m : bpf_map) (key : Z) (k k' : kernel) :
  k_maps k = k_maps k' -> read m key k = read m key k'.
Proof. unfold read. by intros ->. Qed.

Lemma k_prandom_looked_up (m : bpf_map) (k : kernel) :
  k_prandom (looked_up m k) = k_prandom k.
Proof. reflexivity. Qed.

Lemma k_prandom_drawn (k : kernel) : k_prandom (drawn k) = k_prandom k.
Proof. reflexivity. Qed.

Lemma to_uint32_idem (v : Z) : to_uint32 (to_uint32 v) = to_uint32 v.
Proof. unfold to_uint32. apply Z.mod_mod. lia. Qed.

(** An invocation changes neither the maps nor the generator's sequence. *)
Lemma invoke_frame (e : entry_point) (skb : __sk_buff) (k : kernel) :
  k_maps (invoke e skb k).2 = k_maps k /\
  k_prandom (invoke e skb k).2 = k_prandom k.
Proof.
  destruct (invoke_state e skb k) as [-> | [-> | ->]]; by split.
Qed.

(** With the register set, the comparison is with the stored value, for any
    draw. *)
Lemma classifier_hit_result
    (e : entry_point) (skb : __sk_buff) (k : kernel) (v : Z) :
  classifier e = true -> stored e k = Some v -> uint32_range v ->
  (invoke e skb k).1 = if next_draw k <? v then TC_ACT_SHOT else TC_ACT_OK.
Proof.
  intros Hc Hs Hv. destruct e; try discriminate Hc; run_entry; rewrite Hs; simpl;
    by rewrite ?to_uint32_to_int, ?to_uint32_id.
Qed.

Lemma classifier_hit_state
    (e : entry_point) (skb : __sk_buff) (k : kernel) (v : Z) :
  classifier e = true -> stored e k = Some v ->
  (invoke e skb k).2 = drawn (looked_up (store e) k).
Proof.
  intros Hc Hs. rewrite classifier_state by done. rewrite Hs. by destruct e.
Qed.

(** ** The two hooks of src/screamd/bpf.c *)

(** X1. The egress and the ingress hook of src/screamd/bpf.c are the same
    program: on any packet and kernel they return the same verdict and leave
    the same kernel behind. *)
Theorem emain_imain_agree (skb skb' : __sk_buff) (k : kernel) :
  Screamd.emain skb k = Screamd.imain skb' k.
Proof. by rewrite Screamd_emain_run, Screamd_imain_run. Qed.

Lemma direction_hook_drops (e : entry_point) (t d : Z) :
  classifier e = false -> drops e t d = (d <? UINT32_MAX / 10).
Proof.
  intros Hc. unfold drops. rewrite direction_hook_result by done.
  unfold next_draw. simpl. by destruct (d <? _).
Qed.

(** X2. Whatever the register of [map_sh] holds, the hooks of
    src/screamd/bpf.c drop on exactly 429496729 of the 2^32 draws, which is
    a little less than one draw in ten. *)
Theorem direction_hook_drop_count (e : entry_point) (t : Z) :
  classifier e = false ->
  dropping_draws e t = 429496729 /\ 10 * dropping_draws e t < 2 ^ 32.
Proof.
  intros Hc.
  assert (Hcount : dropping_draws e t = 429496729).
  { unfold dropping_draws. rewrite (count_upto_below _ (UINT32_MAX / 10)).
    - rewrite draw_values_Z. reflexivity.
    - apply Z.div_pos; unfold UINT32_MAX; lia.
    - intros d _. by apply direction_hook_drops. }
  rewrite Hcount. split; [done | lia].
Qed.

Lemma direction_hook_drop_count_witness :
  classifier screamd_imain = false /\
  dropping_draws screamd_imain 4294967295 = 429496729 /\
  10 * dropping_draws screamd_imain 4294967295 < 2 ^ 32.
Proof.
  split; [reflexivity |].
  exact (direction_hook_drop_count screamd_imain 4294967295 eq_refl).
Defined.

(** ** The two objects that pin [map_scream] *)

(** X3. src/bpf/bpf2.c and src/screamd/bpf/bpf.c declare the same pinned map
    name; while slot 0 of that map is set, their classifiers are
    indistinguishable: same verdict and same kernel afterwards. *)
Theorem bpf2_screamd_agree_when_set
    (skb skb' : __sk_buff) (k : kernel) (v : Z) :
  read Bpf2.map_scream 0 k = Some v ->
  map_name Bpf2.map_scream = map_name ScreamdBpf.map_scream /\
  Bpf2.scream_bpf skb k = ScreamdBpf.scream_bpf skb' k.
Proof.
  intros Hs. split; [reflexivity |].
  rewrite Bpf2_scream_bpf_run, ScreamdBpf_scream_bpf_run.
  change (read ScreamdBpf.map_scream 0 k) with (read Bpf2.map_scream 0 k).
  by rewrite Hs.
Qed.

Lemma bpf2_screamd_agree_when_set_witness :
  let k := kernel_with Bpf2.map_scream {[ 0 := 3000000000 ]} 17 in
  read Bpf2.map_scream 0 k = Some 3000000000 /\
  map_name Bpf2.map_scream = map_name ScreamdBpf.map_scream /\
  Bpf2.scream_bpf skb0 k = ScreamdBpf.scream_bpf skb1 k.
Proof.
  intros k. split; [reflexivity |].
  exact (bpf2_screamd_agree_when_set skb0 skb1 k 3000000000 eq_refl).
Defined.

(** X4. While slot 0 of [map_scream] is unset the two classifiers disagree
    on every 32-bit draw below UINT32_MAX / 10: src/bpf/bpf2.c passes the
    packet and src/screamd/bpf/bpf.c drops it.  On all other 32-bit draws
    both pass. *)
Theorem bpf2_screamd_differ_when_unset (skb skb' : __sk_buff) (k : kernel) :
  read Bpf2.map_scream 0 k = None ->
  uint32_range (next_draw k) ->
  (Bpf2.scream_bpf skb k).1 = TC_ACT_OK /\
  (ScreamdBpf.scream_bpf skb' k).1 =
  (if next_draw k <? 429496729 then TC_ACT_SHOT else TC_ACT_OK).
Proof.
  intros Hs Hd.
  rewrite Bpf2_scream_bpf_run, ScreamdBpf_scream_bpf_run.
  change (read ScreamdBpf.map_scream 0 k) with (read Bpf2.map_scream 0 k).
  rewrite Hs. simpl default.
  change (to_uint32 (to_int 0)) with 0.
  change (to_uint32 (to_int (UINT32_MAX / 10))) with 429496729.
  split; [| done].
  unfold uint32_range in Hd.
  destruct (Z.ltb_spec (next_draw k) 0); [lia | done].
Qed.

Lemma bpf2_screamd_differ_when_unset_witness :
  let k := kernel_with Bpf.map_keymash {[ 0 := 1 ]} 0 in
  read Bpf2.map_scream 0 k = None /\
  uint32_range (next_draw k) /\
  (Bpf2.scream_bpf skb0 k).1 = TC_ACT_OK /\
  (ScreamdBpf.scream_bpf skb0 k).1 = TC_ACT_SHOT.
Proof.
  intros k.
  assert (Hd : uint32_range (next_draw k))
    by (change (uint32_range 0); apply uint32_range_intro; lia).
  split; [reflexivity |]. split; [exact Hd |].
  exact (bpf2_screamd_differ_when_unset skb0 skb0 k eq_refl Hd).
Defined.

(** X5. A value written to slot 0 of [map_scream] is the threshold of the
    next invocation of both classifiers that pin that map (its low 32 bits
    are compared with the draw), and it does not reach the classifier of
    src/bpf/bpf.c, which pins [map_keymash]. *)
Theorem write_reaches_map_scream_readers
    (skb : __sk_buff) (k : kernel) (value : Z) :
  let k' := (map_update_elem Bpf2.map_scream 0 value k).2 in
  (Bpf2.scream_bpf skb k').1 =
    (if next_draw k <? to_uint32 value then TC_ACT_SHOT else TC_ACT_OK) /\
  (ScreamdBpf.scream_bpf skb k').1 =
    (if next_draw k <? to_uint32 value then TC_ACT_SHOT else TC_ACT_OK) /\
  (Bpf.scream_bpf skb k').1 = (Bpf.scream_bpf skb k).1.
Proof.
  intros k'.
  assert (Hr : read Bpf2.map_scream 0 k' = Some (to_uint32 value))
    by apply read_after_update.
  assert (Hd : next_draw k' = next_draw k) by reflexivity.
  assert (Hk : read Bpf.map_keymash 0 k' = read Bpf.map_keymash 0 k).
  { unfold read, k', map_update_elem. simpl. by rewrite lookup_insert_ne. }
  rewrite Bpf2_scream_bpf_run, ScreamdBpf_scream_bpf_run, !Bpf_scream_bpf_run.
  change (read ScreamdBpf.map_scream 0 k') with (read Bpf2.map_scream 0 k').
  rewrite Hr, Hd, Hk. simpl default.
  rewrite to_uint32_to_int, to_uint32_idem.
  repeat split. by destruct (read Bpf.map_keymash 0 k).
Qed.

(** ** What an invocation calls and returns *)

(** X6. The helper calls of one invocation are exactly: for the classifiers
    of src/bpf/bpf2.c and src/screamd/bpf/bpf.c one lookup of key 0 in
    [map_scream] followed by one draw; for the classifier of src/bpf/bpf.c
    one lookup of key 0 in [map_keymash], followed by one draw only if the
    lookup hit; for the hooks of src/screamd/bpf.c one draw and nothing
    else. *)
Theorem invocation_footprint (e : entry_point) (skb : __sk_buff) (k : kernel) :
  k_trace (invoke e skb k).2 = k_trace k ++ footprint e (stored e k).
Proof.
  destruct e; run_entry; try destruct (read Bpf.map_keymash 0 k); simpl;
    by rewrite <- ?app_assoc.
Qed.

(** X7. Every entry point returns [TC_ACT_OK] or [TC_ACT_SHOT] and no other
    action code, whatever the maps and the generator hold. *)
Theorem verdict_is_ok_or_shot (e : entry_point) (skb : __sk_buff) (k : kernel) :
  (invoke e skb k).1 = TC_ACT_OK \/ (invoke e skb k).1 = TC_ACT_SHOT.
Proof.
  destruct e; run_entry; try destruct (read Bpf.map_keymash 0 k); simpl;
    try destruct (_ <? _); auto.
Qed.

(** X8. Raising the stored threshold never rescues a packet: if a classifier
    drops on some draw with the register at [v], it drops on the same draw
    with the register at any larger 32-bit value [v']. *)
Theorem drop_monotone_in_threshold
    (e : entry_point) (skb skb' : __sk_buff) (k k' : kernel) (v v' : Z) :
  classifier e = true ->
  stored e k = Some v ->
  stored e k' = Some v' ->
  uint32_range v ->
  uint32_range v' ->
  v <= v' ->
  next_draw k = next_draw k' ->
  (invoke e skb k).1 = TC_ACT_SHOT ->
  (invoke e skb' k').1 = TC_ACT_SHOT.
Proof.
  intros Hc Hs Hs' Hv Hv' Hle Hd.
  rewrite (classifier_hit_result e skb k v Hc Hs Hv).
  rewrite (classifier_hit_result e skb' k' v' Hc Hs' Hv'). rewrite <- Hd.
  destruct (Z.ltb_spec (next_draw k) v) as [Hlt | Hge]; [| discriminate].
  intros _. destruct (Z.ltb_spec (next_draw k) v'); [done | lia].
Qed.

Lemma drop_monotone_in_threshold_witness :
  let k := kernel_with Bpf.map_keymash {[ 0 := 10 ]} 9 in
  let k' := kernel_with Bpf.map_keymash {[ 0 := 4000000000 ]} 9 in
  classifier bpf_scream_bpf = true /\
  stored bpf_scream_bpf k = Some 10 /\
  stored bpf_scream_bpf k' = Some 4000000000 /\
  uint32_range 10 /\
  uint32_range 4000000000 /\
  10 <= 4000000000 /\
  next_draw k = next_draw k' /\
  (invoke bpf_scream_bpf skb0 k).1 = TC_ACT_SHOT /\
  (invoke bpf_scream_bpf skb1 k').1 = TC_ACT_SHOT.
Proof.
  intros k k'.
  assert (Hv : uint32_range 10) by (apply uint32_range_intro; lia).
  assert (Hv' : uint32_range 4000000000) by (apply uint32_range_intro; lia).
  assert (Hle : 10 <= 4000000000) by lia.
  split; [reflexivity |]. split; [reflexivity |]. split; [reflexivity |].
  split; [exact Hv |]. split; [exact Hv' |]. split; [exact Hle |].
  split; [reflexivity |]. split; [reflexivity |].
  exact (drop_monotone_in_threshold bpf_scream_bpf skb0 skb1 k k' 10 4000000000
           eq_refl eq_refl eq_refl Hv Hv' Hle eq_refl eq_refl).
Defined.

(** ** Runs of packets *)

Lemma process_cons (e : entry_point) (skb : __sk_buff) (rest : list __sk_buff)
    (k : kernel) :
  process e (skb :: rest) k =
  ((invoke e skb k).1 :: (process e rest (invoke e skb k).2).1,
   (process e rest (invoke e skb k).2).2).
Proof.
  cbn [process]. unfold mbind, bpf_bind, bind.
  destruct (invoke e skb k) as [v k1]. cbn [fst snd].
  by destruct (process e rest k1) as [vs k2].
Qed.

(** X9. A classifier keeps no state between packets: over a run of packets
    with the register set to a 32-bit [v], the i-th packet is judged by the
    i-th number the generator hands out from where it stood, and by nothing
    that happened to the packets before it; the run takes one draw per
    packet and leaves the maps as they were. *)
Theorem process_with_register
    (e : entry_point) (skbs : list __sk_buff) (k : kernel) (v : Z) :
  classifier e = true ->
  stored e k = Some v ->
  uint32_range v ->
  (process e skbs k).1 =
    map (fun i => if k_prandom k i <? v then TC_ACT_SHOT else TC_ACT_OK)
        (seq (k_draws k) (length skbs)) /\
  k_draws (process e skbs k).2 = (k_draws k + length skbs)%nat /\
  k_maps (process e skbs k).2 = k_maps k.
Proof.
  intros Hc Hs Hv. revert k Hs.
  induction skbs as [| skb rest IH]; intros k Hs.
  - simpl. repeat split. lia.
  - rewrite process_cons. cbn [fst snd length seq map].
    destruct (invoke_frame e skb k) as [Hmaps Hprandom].
    assert (Hs1 : stored e (invoke e skb k).2 = Some v).
    { unfold stored in *. by rewrite (read_same_maps _ _ _ k). }
    assert (Hdraws : k_draws (invoke e skb k).2 = S (k_draws k)).
    { by rewrite (classifier_hit_state e skb k v). }
    destruct (IH _ Hs1) as (IHv & IHd & IHm).
    rewrite IHv, IHd, IHm, Hdraws, Hprandom, Hmaps.
    rewrite (classifier_hit_result e skb k v) by done.
    repeat split. lia.
Qed.

Lemma process_with_register_witness :
  let k := {| k_maps := {[ "map_scream" := {[ 0 := 100 ]} ]};
              k_prandom := fun i => (Z.of_nat i * 60)%Z;
              k_draws := 0; k_trace := [] |} in
  classifier bpf2_scream_bpf = true /\
  stored bpf2_scream_bpf k = Some 100 /\
  uint32_range 100 /\
  (process bpf2_scream_bpf [skb0; skb1; skb0] k).1 =
    [TC_ACT_SHOT; TC_ACT_SHOT; TC_ACT_OK] /\
  k_draws (process bpf2_scream_bpf [skb0; skb1; skb0] k).2 = 3%nat /\
  k_maps (process bpf2_scream_bpf [skb0; skb1; skb0] k).2 = k_maps k.
Proof.
  intros k.
  assert (Hv : uint32_range 100) by (apply uint32_range_intro; lia).
  split; [reflexivity |]. split; [reflexivity |]. split; [exact Hv |].
  exact (process_with_register bpf2_scream_bpf [skb0; skb1; skb0] k 100
           eq_refl eq_refl Hv).
Defined.

(** X10. While the register of [map_keymash] is unset, the classifier of
    src/bpf/bpf.c passes every packet of a run and takes no draw at all:
    the generator stands where it stood before the run. *)
Theorem bpf_process_unset (skbs : list __sk_buff) (k : kernel) :
  stored bpf_scream_bpf k = None ->
  (process bpf_scream_bpf skbs k).1 = replicate (length skbs) TC_ACT_OK /\
  k_draws (process bpf_scream_bpf skbs k).2 = k_draws k /\
  k_maps (process bpf_scream_bpf skbs k).2 = k_maps k.
Proof.
  revert k. induction skbs as [| skb rest IH]; intros k Hs.
  - by simpl.
  - rewrite process_cons. cbn [fst snd length replicate].
    assert (Hk1 : invoke bpf_scream_bpf skb k =
                  (TC_ACT_OK, looked_up Bpf.map_keymash k)).
    { run_entry. by rewrite Hs. }
    rewrite Hk1. cbn [fst snd].
    assert (Hs1 : stored bpf_scream_bpf (looked_up Bpf.map_keymash k) = None)
      by exact Hs.
    destruct (IH _ Hs1) as (IHv & IHd & IHm).
    by rewrite IHv, IHd, IHm.
Qed.

Lemma bpf_process_unset_witness :
  let k := kernel_with Bpf2.map_scream {[ 0 := 4294967295 ]} 0 in
  stored bpf_scream_bpf k = None /\
  (process bpf_scream_bpf [skb0; skb1] k).1 = [TC_ACT_OK; TC_ACT_OK] /\
  k_draws (process bpf_scream_bpf [skb0; skb1] k).2 = O /\
  k_maps (process bpf_scream_bpf [skb0; skb1] k).2 = k_maps k.
Proof.
  intros k. split; [reflexivity |].
  exact (bpf_process_unset [skb0; skb1] k eq_refl).
Defined.
